(** * The provider factory of the cluster-monitoring CIM provider

    A verification development for
    [clumon/src/cim-provider/ClusterProviderMain.cpp]: the exported entry
    point [PegasusCreateProvider], which the CIM broker calls with a provider
    name and which answers with a fresh [ClusterMonitoring::ClusterProvider]
    or with the null pointer.

    The function is embedded as a state transformer over an explicit model
    of the process (free store, live objects, allocator events and the rest
    of the process state), with exceptions as a second kind of result.  The
    temporary [String] that the comparison of line 34 makes from the
    literal is part of the embedding. *)

From Stdlib Require Import NArith Ascii String List Bool Lia.
From stdpp Require Import base option gmap.

Local Open Scope N_scope.

(* ===================================================================== *)
(** ** Pegasus strings                                                    *)
(* ===================================================================== *)

Module Pegasus.

(** [Pegasus::Char16]: one 16-bit code unit. *)
Definition Char16 := N.

Module String.

(** [Pegasus::String]: a sequence of [Char16]. *)
Definition t := list Char16.

(** The constructor of a [String] from a C string literal: the
    conversion that the C++ compiler inserts for the literal argument of
    [equalNoCase]; every character of the literal becomes one code unit. *)
Definition of_cstr (s : string) : t :=
  map N_of_ascii (list_ascii_of_string s).

(** Modelled from the spec: the letters 'A'..'Z' and their lower-case
    forms are the only characters that differ by case; the comparison is
    the locale-independent ASCII one ([Pegasus/Common/String.h] is a
    header of the broker and is not part of this repository). *)
Definition isUpper (c : Char16) : bool := (65 <=? c) && (c <=? 90).

Definition toLower (c : Char16) : Char16 :=
  if isUpper c then c + 32 else c.

(** Modelled from the spec: [String::equalNoCase], the case-insensitive
    equality of two Pegasus strings.  Strings of different sizes are
    different; strings of the same size are compared code unit by code
    unit, ignoring the case of ASCII letters. *)
Fixpoint equalNoCase (s1 s2 : t) : bool :=
  match s1, s2 with
  | [], [] => true
  | c1 :: s1', c2 :: s2' => (toLower c1 =? toLower c2) && equalNoCase s1' s2'
  | _, _ => false
  end.

(** The relation that [equalNoCase] decides, stated on its own: two code
    units are the same letter when they are equal or when one is an
    upper-case ASCII letter and the other is its lower-case form. *)
Definition sameLetter (c d : Char16) : Prop :=
  c = d \/ (isUpper c = true /\ d = c + 32) \/ (isUpper d = true /\ c = d + 32).

Definition EqualNoCase (s1 s2 : t) : Prop := Forall2 sameLetter s1 s2.

End String.

End Pegasus.


(* ===================================================================== *)
(** ** The process: free store, objects, exceptions                       *)
(* ===================================================================== *)

(** Addresses of objects; a pointer is null or holds an address. *)
Definition addr := positive.

Inductive pointer :=
| NULL
| Ptr (a : addr).

(** What leaves a function by [throw]: [std::bad_alloc] from the allocation
    function, or whatever a constructor throws. *)
Inductive exception :=
| bad_alloc
| constructor_failure (what : string).

(** How a call ends: it returns a value, it is left by an exception, or its
    behaviour is undefined (a reference that is bound to no object). *)
Inductive outcome (A : Type) :=
| Returned (a : A)
| Thrown (e : exception)
| Undefined.

Arguments Returned {A} a.
Arguments Thrown {A} e.
Arguments Undefined {A}.

(** Calls of the allocation and deallocation functions, as they happen. *)
Inductive event :=
| EvNew (a : addr)
| EvNewFailed
| EvDelete (a : addr).

(** The number of times [operator new] was called in a trace. *)
Fixpoint attempts (t : list event) : nat :=
  match t with
  | [] => O
  | EvNew _ :: t' => S (attempts t')
  | EvNewFailed :: t' => S (attempts t')
  | EvDelete _ :: t' => attempts t'
  end.

Section Provider.

(** The rest of the process state: objects with static storage duration,
    the broker's logger, the locale.  Nothing is assumed about it. *)
Context {G : Type}.

(** Modelled from the spec: [ClusterMonitoring::ClusterProvider] is declared
    in [ClusterProvider.h], which is not among the sources; the type is
    opaque, and its default constructor takes no argument, has no effect
    outside the object it initialises, and either yields the constructed
    object or fails with an exception. *)
Context {ClusterProvider : Type}.
Variable ClusterProvider_ctor : exception + ClusterProvider.

(** What an address of the free store or of the caller holds. *)
Inductive Cell :=
| StringObj (s : Pegasus.String.t)
| Storage
| ProviderObj (cp : ClusterProvider).

(** The process as a call sees it: the live objects by address (the
    caller's strings and what the free store holds), the number of objects
    the free store can still provide, the calls of the allocation functions
    so far (the latest first), and the rest of the process state. *)
Record World := mkWorld {
  heap : gmap addr Cell;
  store_left : nat;
  trace : list event;
  globals : G
}.

(** A computation: from the process before it to its outcome and the
    process after it.  [bind] runs the second computation only when the
    first one returned; an exception leaves both. *)
Definition M (A : Type) : Type := World -> outcome A * World.

Definition ret {A : Type} (a : A) : M A := fun w => (Returned a, w).

Definition throw {A : Type} (e : exception) : M A := fun w => (Thrown e, w).

Definition bind {A B : Type} (m : M A) (k : A -> M B) : M B := fun w =>
  match m w with
  | (Returned a, w') => k a w'
  | (Thrown e, w') => (Thrown e, w')
  | (Undefined, w') => (Undefined, w')
  end.

Notation "x <- m ;; k" := (bind m (fun x => k))
  (at level 100, m at next level, right associativity).
Notation "m ;;; k" := (bind m (fun _ => k))
  (at level 100, right associativity).

(** Reading through a [const String &]: the reference has to be bound to a
    live [String]. *)
Definition read_String (r : addr) : M Pegasus.String.t := fun w =>
  match heap w !! r with
  | Some (StringObj s) => (Returned s, w)
  | _ => (Undefined, w)
  end.

(** [operator new]: a fresh address with raw storage, or [std::bad_alloc]
    when the free store is exhausted. *)
Definition operator_new : M addr := fun w =>
  match store_left w with
  | O => (Thrown bad_alloc,
          mkWorld (heap w) O (EvNewFailed :: trace w) (globals w))
  | S n =>
      let a := fresh (dom (heap w)) in
      (Returned a,
       mkWorld (<[a := Storage]> (heap w)) n (EvNew a :: trace w) (globals w))
  end.

(** [operator delete]: the storage goes back to the free store. *)
Definition operator_delete (a : addr) : M unit := fun w =>
  (Returned tt,
   mkWorld (delete a (heap w)) (S (store_left w)) (EvDelete a :: trace w)
           (globals w)).

(** The constructor has run to completion on the storage at [a]. *)
Definition construct (a : addr) (cp : ClusterProvider) : M unit := fun w =>
  (Returned tt,
   mkWorld (<[a := ProviderObj cp]> (heap w)) (store_left w) (trace w)
           (globals w)).

(** The expression [new ClusterMonitoring::ClusterProvider()]: allocate, run
    the default constructor, and yield the pointer; when the constructor
    throws, the storage is released and the exception goes on. *)
Definition new_ClusterProvider : M pointer :=
  a <- operator_new ;;
  match ClusterProvider_ctor with
  | inr cp => (construct a cp ;;; ret (Ptr a))
  | inl e => (operator_delete a ;;; throw e)
  end.

(** The expression [delete p] of a caller that owns the provider. *)
Definition delete_provider (p : pointer) : M unit := fun w =>
  match p with
  | NULL => (Returned tt, w)
  | Ptr a =>
      match heap w !! a with
      | Some (ProviderObj _) => operator_delete a w
      | _ => (Undefined, w)
      end
  end.

(** Access to the rest of the process state: what a function does when it
    reads or writes an object with static storage duration, or writes to
    the log of the broker. *)
Definition get_globals : M G := fun w => (Returned (globals w), w).

Definition put_globals (g : G) : M unit := fun w =>
  (Returned tt, mkWorld (heap w) (store_left w) (trace w) g).

(** The constructor of a [String] has run to completion on the storage at
    [a]: the characters are held in the free store. *)
Definition construct_String (a : addr) (s : Pegasus.String.t) : M unit :=
  fun w =>
  (Returned tt,
   mkWorld (<[a := StringObj s]> (heap w)) (store_left w) (trace w)
           (globals w)).

(** A temporary [String] made from a literal, where a [const String &] is
    expected and a literal is given: storage is requested with
    [operator new] (which may throw [std::bad_alloc]) and filled with the
    code units of the literal. *)
Definition temporary_String (s : Pegasus.String.t) : M addr :=
  a <- operator_new ;;
  (construct_String a s ;;; ret a).

(** The end of the full-expression that made the temporary: its destructor
    gives the storage back. *)
Definition destroy_temporary (a : addr) : M unit := operator_delete a.

(* ===================================================================== *)
(** ** ClusterProviderMain.cpp                                            *)
(* ===================================================================== *)

(** The literal of line 34, converted to a [String]. *)
Definition RedHatClusterProvider : Pegasus.String.t :=
  Pegasus.String.of_cstr "RedHatClusterProvider".

(** [PegasusCreateProvider(const String &providerName)], lines 32 to 40.
    The condition of line 34 is one full-expression: the temporary [String]
    of the literal is made, [equalNoCase] reads both strings, and the
    temporary is destroyed before either branch is taken. *)
Definition PegasusCreateProvider (providerName : addr) : M pointer :=
  literal <- temporary_String RedHatClusterProvider ;;
  s1 <- read_String providerName ;;
  s2 <- read_String literal ;;
  (destroy_temporary literal ;;;
   if Pegasus.String.equalNoCase s1 s2
   then new_ClusterProvider
   else ret NULL).

(* ===================================================================== *)
(** ** Vocabulary of the statements                                       *)
(* ===================================================================== *)

(** The reference [r] is bound to a live [String] whose value is [name]. *)
Definition refers_to (w : World) (r : addr) (name : Pegasus.String.t) : Prop :=
  heap w !! r = Some (StringObj name).

(** Construction can succeed: storage is left and the constructor of
    [ClusterProvider] completes. *)
Definition can_construct (w : World) : Prop :=
  store_left w <> O /\ exists cp, ClusterProvider_ctor = inr cp.

(** The call fails with [e]: the free store is exhausted, so that the
    first request for storage throws, or the constructor of the provider
    throws. *)
Definition construction_fails (w : World) (e : exception) : Prop :=
  (store_left w = O /\ e = bad_alloc) \/
  (store_left w <> O /\ ClusterProvider_ctor = inl e).

(** The two results of the factory.  [Absent]: the null pointer, and the
    live objects, the free store and the rest of the process state are as
    they were.  [NewInstance]: a pointer to an address that held nothing
    before the call and holds a completely constructed provider after it,
    no other object being touched. *)
Definition Absent (w : World) (res : outcome pointer * World) : Prop :=
  res.1 = Returned NULL /\
  heap res.2 = heap w /\
  store_left res.2 = store_left w /\
  globals res.2 = globals w.

Definition NewInstance (w : World) (res : outcome pointer * World) : Prop :=
  exists a cp,
    res.1 = Returned (Ptr a) /\
    heap w !! a = None /\
    ClusterProvider_ctor = inr cp /\
    heap res.2 = <[a := ProviderObj cp]> (heap w).

(** The exceptional exit: [e] leaves the call, and no object was created,
    changed or destroyed. *)
Definition Propagates (w : World) (e : exception)
    (res : outcome pointer * World) : Prop :=
  res.1 = Thrown e /\ heap res.2 = heap w /\ store_left res.2 = store_left w.


(** The process when the condition of line 34 has been evaluated: the
    temporary was made at a fresh address and destroyed again. *)
Definition after_temporary (w : World) : World :=
  mkWorld (heap w) (store_left w)
          (EvDelete (fresh (dom (heap w))) ::
           EvNew (fresh (dom (heap w))) :: trace w)
          (globals w).

(* ===================================================================== *)
(** ** Case-insensitive comparison                                        *)
(* ===================================================================== *)

Lemma toLower_sameLetter (c d : Pegasus.Char16) :
  Pegasus.String.toLower c = Pegasus.String.toLower d <->
  Pegasus.String.sameLetter c d.
Proof.
  unfold Pegasus.String.sameLetter, Pegasus.String.toLower,
    Pegasus.String.isUpper.
  destruct (N.leb_spec 65 c), (N.leb_spec c 90),
           (N.leb_spec 65 d), (N.leb_spec d 90); cbn [andb];
    split; intros; intuition (try discriminate; lia).
Qed.

Lemma equalNoCase_spec (s1 s2 : Pegasus.String.t) :
  Pegasus.String.equalNoCase s1 s2 = true <-> Pegasus.String.EqualNoCase s1 s2.
Proof.
  unfold Pegasus.String.EqualNoCase.
  revert s2; induction s1 as [|c s1 IH]; intros [|d s2]; cbn.
  - split; [constructor | reflexivity].
  - split; [discriminate | inversion 1].
  - split; [discriminate | inversion 1].
  - rewrite andb_true_iff, N.eqb_eq, toLower_sameLetter, IH.
    split; [intros []; constructor; assumption | inversion 1; subst; auto].
Qed.

Lemma equalNoCase_length (s1 s2 : Pegasus.String.t) :
  Pegasus.String.equalNoCase s1 s2 = true -> length s1 = length s2.
Proof.
  revert s2; induction s1 as [|c s1 IH]; intros [|d s2]; cbn;
    try discriminate; auto.
  rewrite andb_true_iff; intros [_ H]; f_equal; auto.
Qed.

Lemma equalNoCase_refl (s : Pegasus.String.t) :
  Pegasus.String.equalNoCase s s = true.
Proof. induction s; cbn; [|rewrite N.eqb_refl]; auto. Qed.

Lemma equalNoCase_sym (s1 s2 : Pegasus.String.t) :
  Pegasus.String.equalNoCase s1 s2 = Pegasus.String.equalNoCase s2 s1.
Proof.
  revert s2; induction s1 as [|c s1 IH]; intros [|d s2]; cbn; auto.
  rewrite IH, N.eqb_sym; reflexivity.
Qed.

Lemma RedHatClusterProvider_length : length RedHatClusterProvider = 21%nat.
Proof. reflexivity. Qed.

(** A name of any other size than the literal's is not equal to it: the
    empty name, the proper prefixes and suffixes of the literal, the literal
    with characters added before, after or inside it. *)
Lemma other_length_no_match (name : Pegasus.String.t) :
  length name <> 21%nat ->
  Pegasus.String.equalNoCase name RedHatClusterProvider = false.
Proof.
  intros Hlen.
  destruct (Pegasus.String.equalNoCase name RedHatClusterProvider) eqn:E; auto.
  apply equalNoCase_length in E. rewrite RedHatClusterProvider_length in E.
  contradiction.
Qed.

(** Unfolds a call down to the operations on the process state. *)
Ltac run_factory :=
  unfold PegasusCreateProvider, temporary_String, destroy_temporary,
    new_ClusterProvider, bind, read_String, operator_new, operator_delete,
    construct, construct_String, ret, throw.

(* ===================================================================== *)
(** ** The new-expression                                                 *)
(* ===================================================================== *)

Lemma fresh_unused (w : World) : heap w !! fresh (dom (heap w)) = None.
Proof. apply not_elem_of_dom, is_fresh. Qed.

Lemma new_returns (w : World) (cp : ClusterProvider) :
  store_left w <> O ->
  ClusterProvider_ctor = inr cp ->
  new_ClusterProvider w =
    (Returned (Ptr (fresh (dom (heap w)))),
     mkWorld (<[fresh (dom (heap w)) := ProviderObj cp]> (heap w))
             (pred (store_left w))
             (EvNew (fresh (dom (heap w))) :: trace w) (globals w)).
Proof.
  intros Hleft Hctor.
  unfold new_ClusterProvider, bind, operator_new. rewrite Hctor.
  destruct (store_left w) as [|n]; [contradiction|].
  cbn. by rewrite insert_insert_eq.
Qed.

Lemma new_bad_alloc (w : World) :
  store_left w = O ->
  new_ClusterProvider w =
    (Thrown bad_alloc, mkWorld (heap w) O (EvNewFailed :: trace w) (globals w)).
Proof.
  intros Hleft. unfold new_ClusterProvider, bind, operator_new.
  by rewrite Hleft.
Qed.

Lemma new_constructor_throws (w : World) (e : exception) :
  store_left w <> O ->
  ClusterProvider_ctor = inl e ->
  new_ClusterProvider w =
    (Thrown e,
     mkWorld (heap w) (store_left w)
             (EvDelete (fresh (dom (heap w))) ::
              EvNew (fresh (dom (heap w))) :: trace w) (globals w)).
Proof.
  intros Hleft Hctor.
  unfold new_ClusterProvider, bind, operator_new. rewrite Hctor.
  destruct (store_left w) as [|n]; [contradiction|].
  cbn. by rewrite delete_insert_id by apply fresh_unused.
Qed.

(* ===================================================================== *)
(** ** The condition of line 34                                           *)
(* ===================================================================== *)

(** With an exhausted free store the temporary cannot be made, and the
    call is left by [std::bad_alloc] before any name is compared. *)
Lemma factory_exhausted (w : World) (r : addr) :
  store_left w = O ->
  PegasusCreateProvider r w =
    (Thrown bad_alloc, mkWorld (heap w) O (EvNewFailed :: trace w) (globals w)).
Proof.
  intros Hleft. unfold PegasusCreateProvider, temporary_String, bind,
    operator_new.
  by rewrite Hleft.
Qed.

(** With storage for the temporary, the call is the branch that the
    comparison selects, taken after the temporary is gone. *)
Lemma factory_branch (w : World) (r : addr) (name : Pegasus.String.t) :
  refers_to w r name ->
  store_left w <> O ->
  PegasusCreateProvider r w =
    if Pegasus.String.equalNoCase name RedHatClusterProvider
    then new_ClusterProvider (after_temporary w)
    else (Returned NULL, after_temporary w).
Proof.
  intros Href Hleft.
  pose proof (fresh_unused w) as Hfresh.
  assert (Hne : fresh (dom (heap w)) <> r)
    by (unfold refers_to in Href; congruence).
  unfold PegasusCreateProvider, temporary_String, destroy_temporary, bind,
    read_String, operator_new, operator_delete, construct_String, ret,
    after_temporary.
  destruct (store_left w) as [|n] eqn:Hn; [contradiction|].
  cbn [heap store_left trace globals].
  rewrite insert_insert_eq, lookup_insert_ne, Href by done.
  cbn [heap store_left trace globals].
  rewrite lookup_insert_eq.
  cbn [heap store_left trace globals].
  rewrite delete_insert_id by done.
  by destruct (Pegasus.String.equalNoCase name RedHatClusterProvider).
Qed.

Lemma factory_on_match (w : World) (r : addr) (name : Pegasus.String.t) :
  refers_to w r name ->
  Pegasus.String.equalNoCase name RedHatClusterProvider = true ->
  store_left w <> O ->
  PegasusCreateProvider r w = new_ClusterProvider (after_temporary w).
Proof.
  intros Href Heq Hleft. by rewrite (factory_branch w r name Href Hleft), Heq.
Qed.

Lemma factory_on_other (w : World) (r : addr) (name : Pegasus.String.t) :
  refers_to w r name ->
  Pegasus.String.equalNoCase name RedHatClusterProvider = false ->
  store_left w <> O ->
  PegasusCreateProvider r w = (Returned NULL, after_temporary w).
Proof.
  intros Href Hne Hleft. by rewrite (factory_branch w r name Href Hleft), Hne.
Qed.

(* ===================================================================== *)
(** ** The paths of the factory                                           *)
(* ===================================================================== *)

Lemma new_instance_of_new (w : World) :
  can_construct w -> NewInstance w (new_ClusterProvider w).
Proof.
  intros [Hleft [cp Hctor]]. rewrite (new_returns w cp Hleft Hctor).
  exists (fresh (dom (heap w))), cp. cbn. auto using fresh_unused.
Qed.

Lemma can_construct_of_new (w : World) :
  NewInstance w (new_ClusterProvider w) -> can_construct w.
Proof.
  intros (a & cp & Hres & _ & Hctor & _). split; [|eauto].
  intros Hleft. rewrite (new_bad_alloc w Hleft) in Hres. discriminate.
Qed.

Lemma propagates_of_new (w : World) (e : exception) :
  construction_fails w e -> Propagates w e (new_ClusterProvider w).
Proof.
  intros [[Hleft ->] | [Hleft Hctor]].
  - rewrite (new_bad_alloc w Hleft). by repeat split.
  - rewrite (new_constructor_throws w e Hleft Hctor). by repeat split.
Qed.

(** Construction either can succeed or fails with a definite exception. *)
Lemma construct_or_fail (w : World) :
  can_construct w \/ exists e, construction_fails w e.
Proof.
  unfold can_construct, construction_fails.
  destruct (store_left w) as [|n]; [right; eauto|].
  destruct ClusterProvider_ctor as [e|cp]; [right|left]; eauto.
Qed.

Lemma can_construct_not_fails (w : World) (e : exception) :
  can_construct w -> ~ construction_fails w e.
Proof.
  intros [Hleft [cp Hctor]] [[H0 _] | [_ He]]; congruence.
Qed.

(** What holds of the process when the temporary is gone holds of the
    process before the call. *)
Lemma new_instance_after_temporary (w : World)
    (res : outcome pointer * World) :
  NewInstance (after_temporary w) res -> NewInstance w res.
Proof. done. Qed.

Lemma propagates_after_temporary (w : World) (e : exception)
    (res : outcome pointer * World) :
  Propagates (after_temporary w) e res -> Propagates w e res.
Proof. done. Qed.

(** The complete account of a call, by the name and by the state of the
    free store. *)
Lemma factory_cases (w : World) (r : addr) (name : Pegasus.String.t) :
  refers_to w r name ->
  (Pegasus.String.equalNoCase name RedHatClusterProvider = false /\
   store_left w <> O /\
   Absent w (PegasusCreateProvider r w)) \/
  (Pegasus.String.equalNoCase name RedHatClusterProvider = true /\
   can_construct w /\ NewInstance w (PegasusCreateProvider r w)) \/
  (exists e, construction_fails w e /\
             Propagates w e (PegasusCreateProvider r w) /\
             (store_left w <> O ->
              Pegasus.String.equalNoCase name RedHatClusterProvider = true)).
Proof.
  intros Href.
  destruct (store_left w) as [|n] eqn:Hn.
  { right; right. exists bad_alloc.
    rewrite (factory_exhausted w r Hn). unfold construction_fails, Propagates.
    cbn. rewrite Hn. split; [auto | split; [done | congruence]]. }
  assert (Hleft : store_left w <> O) by congruence.
  destruct (Pegasus.String.equalNoCase name RedHatClusterProvider) eqn:Heq.
  - right. rewrite (factory_on_match w r name Href Heq Hleft).
    destruct (construct_or_fail w) as [Hok | [e He]].
    + left. repeat split; [by rewrite Hn | apply Hok |].
      by apply new_instance_after_temporary, new_instance_of_new.
    + right. exists e. repeat split; try apply He; try done;
        by apply (propagates_of_new (after_temporary w) e).
  - left. rewrite (factory_on_other w r name Href Heq Hleft).
    repeat split; congruence.
Qed.

Lemma absent_not_new (w w' : World) (res : outcome pointer * World) :
  ~ (Absent w res /\ NewInstance w' res).
Proof.
  intros [[Hnull _] (a & cp & Hres & _)]. congruence.
Qed.

(** Whatever pointer the new-expression returns points to a provider that
    the default constructor built. *)
Lemma new_returned_object (w : World) (a : addr) :
  (new_ClusterProvider w).1 = Returned (Ptr a) ->
  exists cp, ClusterProvider_ctor = inr cp /\
             heap (new_ClusterProvider w).2 !! a = Some (ProviderObj cp).
Proof.
  destruct (construct_or_fail w) as [[Hleft [cp Hctor]] | [e He]].
  - rewrite (new_returns w cp Hleft Hctor). cbn. intros [= <-].
    exists cp. by rewrite lookup_insert_eq.
  - destruct (propagates_of_new w e He) as [Hthrow _].
    rewrite Hthrow. discriminate.
Qed.

(** The heap after a call: the heap before it, with at most one new cell. *)
Lemma factory_heap (w : World) (r : addr) (name : Pegasus.String.t) :
  refers_to w r name ->
  heap (PegasusCreateProvider r w).2 = heap w \/
  exists a cp, heap w !! a = None /\
    heap (PegasusCreateProvider r w).2 = <[a := ProviderObj cp]> (heap w).
Proof.
  intros Href.
  destruct (factory_cases w r name Href)
    as [(_ & _ & _ & Hh & _) |
        [(_ & _ & a & cp & _ & Ha & _ & Hh) | (e & _ & (_ & Hh & _) & _)]];
    eauto.
Qed.


(** The whole result of a call that finds storage and a matching name. *)
Lemma factory_creates (w : World) (r : addr) (name : Pegasus.String.t)
    (cp : ClusterProvider) :
  refers_to w r name ->
  Pegasus.String.equalNoCase name RedHatClusterProvider = true ->
  store_left w <> O ->
  ClusterProvider_ctor = inr cp ->
  PegasusCreateProvider r w =
    (Returned (Ptr (fresh (dom (heap w)))),
     mkWorld (<[fresh (dom (heap w)) := ProviderObj cp]> (heap w))
             (pred (store_left w))
             (EvNew (fresh (dom (heap w))) :: trace (after_temporary w))
             (globals w)).
Proof.
  intros Href Heq Hleft Hctor.
  rewrite (factory_on_match w r name Href Heq Hleft).
  by rewrite (new_returns (after_temporary w) cp Hleft Hctor).
Qed.

(* ===================================================================== *)
(** ** Properties of PegasusCreateProvider                                *)
(* ===================================================================== *)

(** C1. For every provider name, when construction can succeed, the factory
    returns a non-null pointer to a newly allocated, completely constructed
    [ClusterProvider] if and only if the name equals the literal
    "RedHatClusterProvider" up to the case of its letters. *)
Theorem factory_creates_iff_name_matches
    (w : World) (r : addr) (name : Pegasus.String.t) :
  refers_to w r name ->
  can_construct w ->
  NewInstance w (PegasusCreateProvider r w) <->
  Pegasus.String.EqualNoCase name RedHatClusterProvider.
Proof.
  intros Href Hok. rewrite <- equalNoCase_spec.
  destruct (factory_cases w r name Href)
    as [(Hne & _ & Habs) | [(Heq & _ & Hnew) | (e & He & _)]].
  - split; [|congruence].
    intros Hnew. destruct (absent_not_new w w _ (conj Habs Hnew)).
  - tauto.
  - destruct (can_construct_not_fails w e Hok He).
Qed.

(** C2. For every provider name that does not equal the literal up to the
    case of its letters, when the free store has room for the temporary
    [String] of the comparison, the factory returns the null pointer: a
    normal return, not an exception, and the live objects, the free store
    and the rest of the process state are left as they were. *)
Theorem factory_absent_on_other_names
    (w : World) (r : addr) (name : Pegasus.String.t) :
  refers_to w r name ->
  Pegasus.String.equalNoCase name RedHatClusterProvider = false ->
  store_left w <> O ->
  Absent w (PegasusCreateProvider r w).
Proof.
  intros Href Hne Hleft. rewrite (factory_on_other w r name Href Hne Hleft).
  by repeat split.
Qed.

(** C3. For every provider name, a call ends in one of three ways: the null
    pointer is returned, or a pointer to a new instance is returned, or an
    exception ([std::bad_alloc], or what the constructor throws) leaves the
    call and no object was created.  So whatever is returned is one of the
    two results, never both: the null pointer, or a pointer to an address
    that no object had before the call and that holds a completely
    constructed provider after it. *)
Theorem factory_two_outcomes
    (w : World) (r : addr) (name : Pegasus.String.t) :
  refers_to w r name ->
  (Absent w (PegasusCreateProvider r w) \/
   NewInstance w (PegasusCreateProvider r w) \/
   exists e, construction_fails w e /\
             Propagates w e (PegasusCreateProvider r w)) /\
  ~ (Absent w (PegasusCreateProvider r w) /\
     NewInstance w (PegasusCreateProvider r w)) /\
  (forall p, (PegasusCreateProvider r w).1 = Returned p ->
     Absent w (PegasusCreateProvider r w) \/
     NewInstance w (PegasusCreateProvider r w)).
Proof.
  intros Href. split; [|split].
  - destruct (factory_cases w r name Href)
      as [(_ & _ & H) | [(_ & _ & H) | (e & He & H & _)]]; eauto.
  - apply absent_not_new.
  - intros p Hp.
    destruct (factory_cases w r name Href)
      as [(_ & _ & H) | [(_ & _ & H) | (e & _ & (Hthrow & _) & _)]]; auto.
    rewrite Hthrow in Hp. discriminate.
Qed.


(** C5. Two calls with matching names, one after the other, return two
    different addresses, each newly allocated by its own call; both
    providers are live afterwards, and destroying either leaves the other
    as it was. *)
Theorem repeated_calls_give_distinct_instances
    (w : World) (r1 r2 : addr) (n1 n2 : Pegasus.String.t)
    (cp : ClusterProvider) :
  refers_to w r1 n1 ->
  refers_to w r2 n2 ->
  Pegasus.String.equalNoCase n1 RedHatClusterProvider = true ->
  Pegasus.String.equalNoCase n2 RedHatClusterProvider = true ->
  (2 <= store_left w)%nat ->
  ClusterProvider_ctor = inr cp ->
  exists a1 a2 w1 w2,
    PegasusCreateProvider r1 w = (Returned (Ptr a1), w1) /\
    PegasusCreateProvider r2 w1 = (Returned (Ptr a2), w2) /\
    a1 <> a2 /\
    heap w !! a1 = None /\
    heap w1 !! a2 = None /\
    heap w2 !! a1 = Some (ProviderObj cp) /\
    heap w2 !! a2 = Some (ProviderObj cp) /\
    (delete_provider (Ptr a1) w2).1 = Returned tt /\
    heap (delete_provider (Ptr a1) w2).2 !! a1 = None /\
    heap (delete_provider (Ptr a1) w2).2 !! a2 = Some (ProviderObj cp) /\
    (delete_provider (Ptr a2) w2).1 = Returned tt /\
    heap (delete_provider (Ptr a2) w2).2 !! a2 = None /\
    heap (delete_provider (Ptr a2) w2).2 !! a1 = Some (ProviderObj cp).
Proof.
  intros Href1 Href2 Heq1 Heq2 Hleft Hctor.
  set (a1 := fresh (dom (heap w))).
  set (w1 := mkWorld (<[a1 := ProviderObj cp]> (heap w)) (pred (store_left w))
                     (EvNew a1 :: trace (after_temporary w)) (globals w)).
  set (a2 := fresh (dom (heap w1))).
  set (w2 := mkWorld (<[a2 := ProviderObj cp]> (heap w1)) (pred (store_left w1))
                     (EvNew a2 :: trace (after_temporary w1)) (globals w1)).
  assert (Ha1 : heap w !! a1 = None) by apply fresh_unused.
  assert (Ha2 : heap w1 !! a2 = None) by apply fresh_unused.
  assert (Hlive1 : heap w1 !! a1 = Some (ProviderObj cp))
    by apply lookup_insert_eq.
  assert (Hne : a1 <> a2) by congruence.
  assert (Hr2 : r2 <> a1) by (unfold refers_to in Href2; congruence).
  assert (Href2' : refers_to w1 r2 n2).
  { unfold refers_to. cbn. by rewrite lookup_insert_ne. }
  assert (H21 : heap w2 !! a1 = Some (ProviderObj cp)).
  { cbn. rewrite lookup_insert_ne by done. apply lookup_insert_eq. }
  assert (H22 : heap w2 !! a2 = Some (ProviderObj cp))
    by apply lookup_insert_eq.
  exists a1, a2, w1, w2. repeat split; try done.
  - apply (factory_creates w r1 n1 cp Href1 Heq1); [lia | done].
  - apply (factory_creates w1 r2 n2 cp Href2' Heq2); [cbn; lia | done].
  - unfold delete_provider. by rewrite H21.
  - unfold delete_provider. rewrite H21. apply lookup_delete_eq.
  - unfold delete_provider. rewrite H21. cbn -[w2].
    by rewrite lookup_delete_ne.
  - unfold delete_provider. by rewrite H22.
  - unfold delete_provider. rewrite H22. apply lookup_delete_eq.
  - unfold delete_provider. rewrite H22. cbn -[w2].
    by rewrite lookup_delete_ne.
Qed.

(** C6. Two calls with the same name that does not match, in a process with
    room for the temporary [String], return the null pointer both times,
    and after the second call the live objects, the free store and the rest
    of the process state are what they were before the first: nothing is
    kept from one call to the next. *)
Theorem unmatched_twice
    (w : World) (r : addr) (name : Pegasus.String.t) :
  refers_to w r name ->
  Pegasus.String.equalNoCase name RedHatClusterProvider = false ->
  store_left w <> O ->
  Absent w (PegasusCreateProvider r w) /\
  Absent w (PegasusCreateProvider r (PegasusCreateProvider r w).2) /\
  Absent w (bind (PegasusCreateProvider r)
                 (fun _ => PegasusCreateProvider r) w).
Proof.
  intros Href Hne Hleft.
  pose proof (factory_on_other w r name Href Hne Hleft) as H1.
  assert (H2 : PegasusCreateProvider r (after_temporary w) =
               (Returned NULL, after_temporary (after_temporary w)))
    by (by apply (factory_on_other _ r name)).
  unfold bind. rewrite !H1. cbn [snd]. rewrite !H2.
  by repeat split.
Qed.


(** C8. On the path of a name that does not match, no provider is
    constructed: the only storage that the call requests is that of the
    temporary [String] of the comparison, and it is given back before the
    call returns.  So the live objects and the free store after the call
    are those before it; the null pointer is returned where the free store
    has room for the temporary, and [std::bad_alloc] leaves the call where
    it has none. *)
Theorem unmatched_allocates_only_temporary
    (w : World) (r : addr) (name : Pegasus.String.t) :
  refers_to w r name ->
  Pegasus.String.equalNoCase name RedHatClusterProvider = false ->
  (store_left w <> O ->
   PegasusCreateProvider r w = (Returned NULL, after_temporary w)) /\
  (store_left w = O ->
   PegasusCreateProvider r w =
     (Thrown bad_alloc,
      mkWorld (heap w) O (EvNewFailed :: trace w) (globals w))) /\
  heap (PegasusCreateProvider r w).2 = heap w /\
  store_left (PegasusCreateProvider r w).2 = store_left w /\
  (attempts (trace (PegasusCreateProvider r w).2) = S (attempts (trace w))).
Proof.
  intros Href Hne. split; [|split].
  - apply (factory_on_other w r name Href Hne).
  - apply factory_exhausted.
  - destruct (store_left w) as [|n] eqn:Hn.
    + by rewrite (factory_exhausted w r Hn).
    + by rewrite (factory_on_other w r name Href Hne) by congruence.
Qed.

(** C9. The [String] that the factory receives by reference has the same
    value after the call as before it, whatever the name and however the
    call ends; so has every other [String] of the caller. *)
Theorem name_not_modified
    (w : World) (r : addr) (name : Pegasus.String.t) :
  refers_to w r name ->
  refers_to (PegasusCreateProvider r w).2 r name /\
  (forall r' s, refers_to w r' s ->
                refers_to (PegasusCreateProvider r w).2 r' s).
Proof.
  intros Href.
  assert (Hall : forall r' s, refers_to w r' s ->
                   refers_to (PegasusCreateProvider r w).2 r' s).
  { intros r' s Hs. unfold refers_to in *.
    destruct (factory_heap w r name Href) as [-> | (a & cp & Ha & ->)];
      [done|].
    rewrite lookup_insert_ne; [done | congruence]. }
  auto.
Qed.

(** C10. The provider that is constructed does not depend on the name: two
    matching names give the same result in the same process state, and in
    any two process states the objects behind the returned pointers are
    the same, the one that the default constructor builds. *)
Theorem instance_independent_of_name
    (w1 w2 : World) (r1 r2 : addr) (n1 n2 : Pegasus.String.t) :
  refers_to w1 r1 n1 ->
  refers_to w2 r2 n2 ->
  Pegasus.String.equalNoCase n1 RedHatClusterProvider = true ->
  Pegasus.String.equalNoCase n2 RedHatClusterProvider = true ->
  (w1 = w2 -> PegasusCreateProvider r1 w1 = PegasusCreateProvider r2 w2) /\
  (forall a1 a2,
     (PegasusCreateProvider r1 w1).1 = Returned (Ptr a1) ->
     (PegasusCreateProvider r2 w2).1 = Returned (Ptr a2) ->
     heap (PegasusCreateProvider r1 w1).2 !! a1 =
       heap (PegasusCreateProvider r2 w2).2 !! a2 /\
     exists cp, ClusterProvider_ctor = inr cp /\
       heap (PegasusCreateProvider r1 w1).2 !! a1 = Some (ProviderObj cp)).
Proof.
  intros Href1 Href2 Heq1 Heq2. split.
  - intros <-. destruct (store_left w1) as [|n] eqn:Hn.
    + by rewrite !(factory_exhausted w1 _ Hn).
    + rewrite (factory_on_match w1 r1 n1 Href1 Heq1) by congruence.
      by rewrite (factory_on_match w1 r2 n2 Href2 Heq2) by congruence.
  - intros a1 a2 H1 H2.
    assert (Hleft : forall v q, (PegasusCreateProvider q v).1 <> Thrown bad_alloc
                                -> store_left v <> O).
    { intros v q Hv H0. by rewrite (factory_exhausted v q H0) in Hv. }
    assert (Hl1 : store_left w1 <> O) by (apply (Hleft w1 r1); congruence).
    assert (Hl2 : store_left w2 <> O) by (apply (Hleft w2 r2); congruence).
    rewrite (factory_on_match w1 r1 n1 Href1 Heq1 Hl1) in *.
    rewrite (factory_on_match w2 r2 n2 Href2 Heq2 Hl2) in *.
    destruct (new_returned_object _ a1 H1) as (cp1 & Hc1 & Ho1).
    destruct (new_returned_object _ a2 H2) as (cp2 & Hc2 & Ho2).
    split; [|eauto].
    rewrite Ho1, Ho2. congruence.
Qed.

(* ===================================================================== *)
(** ** Ownership, storage and the comparison of whole names               *)
(* ===================================================================== *)

Lemma equalNoCase_trans (s1 s2 s3 : Pegasus.String.t) :
  Pegasus.String.equalNoCase s1 s2 = true ->
  Pegasus.String.equalNoCase s2 s3 = true ->
  Pegasus.String.equalNoCase s1 s3 = true.
Proof.
  revert s2 s3; induction s1 as [|c1 s1 IH]; intros [|c2 s2] [|c3 s3]; cbn;
    try done.
  rewrite !andb_true_iff, !N.eqb_eq. intros [H12 T12] [H23 T23].
  split; [congruence | eauto].
Qed.

(** Two names that differ in the case of their letters only are both equal
    to the literal or both different from it. *)
Lemma equalNoCase_same_verdict (n1 n2 : Pegasus.String.t) :
  Pegasus.String.equalNoCase n1 n2 = true ->
  Pegasus.String.equalNoCase n1 RedHatClusterProvider =
  Pegasus.String.equalNoCase n2 RedHatClusterProvider.
Proof.
  intros H12.
  destruct (Pegasus.String.equalNoCase n2 RedHatClusterProvider) eqn:H2.
  - by apply (equalNoCase_trans n1 n2).
  - destruct (Pegasus.String.equalNoCase n1 RedHatClusterProvider) eqn:H1;
      [|done].
    rewrite equalNoCase_sym in H12.
    rewrite (equalNoCase_trans n2 n1 _ H12 H1) in H2. done.
Qed.

(** X1. The caller owns what the factory returns: the pointer returned for
    a matching name can be destroyed with [delete], and after that the live
    objects, the free store and the rest of the process state are what they
    were before the factory was called. *)
Theorem create_then_delete_restores
    (w : World) (r : addr) (name : Pegasus.String.t) :
  refers_to w r name ->
  Pegasus.String.equalNoCase name RedHatClusterProvider = true ->
  can_construct w ->
  exists a w1,
    PegasusCreateProvider r w = (Returned (Ptr a), w1) /\
    (delete_provider (Ptr a) w1).1 = Returned tt /\
    heap (delete_provider (Ptr a) w1).2 = heap w /\
    store_left (delete_provider (Ptr a) w1).2 = store_left w /\
    globals (delete_provider (Ptr a) w1).2 = globals w.
Proof.
  intros Href Heq [Hleft [cp Hctor]].
  rewrite (factory_creates w r name cp Href Heq Hleft Hctor).
  eexists _, _. split; [reflexivity|].
  unfold delete_provider. cbn [heap]. rewrite lookup_insert_eq.
  unfold operator_delete. cbn [fst snd heap store_left globals].
  repeat split.
  - apply delete_insert_id, fresh_unused.
  - destruct (store_left w); [done | reflexivity].
Qed.

(** X2. No storage is lost on any path of the factory.  When the call
    returns a provider, the live objects after it are those before it and
    the provider, at an address unused before, and the free store has given
    one object's storage.  When it returns the null pointer or is left by
    an exception, the live objects and the free store are exactly what they
    were: the storage of the temporary [String] is given back, and so is
    the storage of a provider whose constructor throws. *)
Theorem storage_conserved
    (w : World) (r : addr) (name : Pegasus.String.t) :
  refers_to w r name ->
  match (PegasusCreateProvider r w).1 with
  | Returned (Ptr a) =>
      heap w !! a = None /\
      (exists cp, heap (PegasusCreateProvider r w).2 =
                    <[a := ProviderObj cp]> (heap w)) /\
      S (store_left (PegasusCreateProvider r w).2) = store_left w
  | _ =>
      heap (PegasusCreateProvider r w).2 = heap w /\
      store_left (PegasusCreateProvider r w).2 = store_left w
  end.
Proof.
  intros Href.
  destruct (factory_cases w r name Href)
    as [(_ & _ & Hres & Hh & Hs & _) | [(Heq & [Hleft [cp Hctor]] & _) |
        (e & _ & (Hres & Hh & Hs) & _)]].
  - by rewrite Hres.
  - rewrite (factory_creates w r name cp Href Heq Hleft Hctor).
    cbn [fst snd heap store_left]. repeat split.
    + apply fresh_unused.
    + by exists cp.
    + destruct (store_left w); [done | reflexivity].
  - by rewrite Hres.
Qed.

(** X3. The case of the letters of the name is of no consequence: for two
    names that are equal up to the case of their letters, matching or not,
    the factory gives the same result and leaves the same process state. *)
Theorem case_variants_treated_alike
    (w : World) (r1 r2 : addr) (n1 n2 : Pegasus.String.t) :
  refers_to w r1 n1 ->
  refers_to w r2 n2 ->
  Pegasus.String.equalNoCase n1 n2 = true ->
  PegasusCreateProvider r1 w = PegasusCreateProvider r2 w.
Proof.
  intros Href1 Href2 H12.
  pose proof (equalNoCase_same_verdict n1 n2 H12) as Hsame.
  destruct (store_left w) as [|n] eqn:Hn.
  { by rewrite !(factory_exhausted w _ Hn). }
  assert (Hleft : store_left w <> O) by congruence.
  rewrite (factory_branch w r1 n1 Href1 Hleft).
  rewrite (factory_branch w r2 n2 Href2 Hleft).
  by rewrite Hsame.
Qed.

(** X4. The factory compares whole names, not prefixes: a name whose size
    differs from the size of a name that matches (a name cut short, or with
    code units added before, inside or after it) never gets a provider, in
    whatever process state; where the free store has room for the
    temporary [String] of the comparison it gets the null pointer, with the
    live objects and the free store as they were. *)
Theorem whole_name_compared
    (w : World) (r : addr) (name matching : Pegasus.String.t) :
  refers_to w r name ->
  Pegasus.String.equalNoCase matching RedHatClusterProvider = true ->
  length name <> length matching ->
  (forall a, (PegasusCreateProvider r w).1 <> Returned (Ptr a)) /\
  (store_left w <> O -> Absent w (PegasusCreateProvider r w)).
Proof.
  intros Href Hm Hlen.
  assert (Hne : Pegasus.String.equalNoCase name RedHatClusterProvider = false).
  { apply other_length_no_match. apply equalNoCase_length in Hm.
    rewrite RedHatClusterProvider_length in Hm. congruence. }
  split.
  - intros a. destruct (store_left w) as [|n] eqn:Hn.
    + by rewrite (factory_exhausted w r Hn).
    + by rewrite (factory_on_other w r name Href Hne) by congruence.
  - intros Hleft. rewrite (factory_on_other w r name Href Hne Hleft).
    by repeat split.
Qed.

End Provider.
(* ===================================================================== *)
(** ** The spellings that the broker may use                              *)
(* ===================================================================== *)

Example literal_matches :
  Pegasus.String.equalNoCase
    (Pegasus.String.of_cstr "RedHatClusterProvider") RedHatClusterProvider
  = true.
Proof. reflexivity. Qed.

Example lower_case_matches :
  Pegasus.String.equalNoCase
    (Pegasus.String.of_cstr "redhatclusterprovider") RedHatClusterProvider
  = true.
Proof. reflexivity. Qed.

Example upper_case_matches :
  Pegasus.String.equalNoCase
    (Pegasus.String.of_cstr "REDHATCLUSTERPROVIDER") RedHatClusterProvider
  = true.
Proof. reflexivity. Qed.

(** The empty name, a prefix, a suffix, a longer name, names with blanks
    and a name of the right size with one other letter do not match. *)
Example other_names_do_not_match :
  Forall (fun s => Pegasus.String.equalNoCase (Pegasus.String.of_cstr s)
                     RedHatClusterProvider = false)
    [ EmptyString; "RedHatCluster"; "ClusterProvider"; "RedHatClusterProviderX";
      " RedHatClusterProvider"; "RedHatClusterProvider ";
      "RedHat Cluster Provider"; "RedHatClusterProvidex";
      "RedHat_ClusterProvider" ]%string.
Proof. repeat constructor. Qed.

(* ===================================================================== *)
(** ** A broker that probes the factory                                   *)
(* ===================================================================== *)

Module Broker.

(** A provider whose state is one number, built by its default
    constructor as 0. *)
Definition provider_ctor : exception + nat := inr O.

(** A default constructor that throws. *)
Definition failing_ctor : exception + nat :=
  inl (constructor_failure "no cluster").

(** The names that the broker holds, by address. *)
Definition names : gmap addr (@Cell nat) :=
  list_to_map
    [ (1%positive, StringObj (Pegasus.String.of_cstr "redhatclusterprovider"));
      (2%positive, StringObj (Pegasus.String.of_cstr "REDHATCLUSTERPROVIDER"));
      (3%positive, StringObj (Pegasus.String.of_cstr "RedHatCluster"));
      (4%positive, StringObj []) ].

(** A process with room for two objects, and one with none. *)
Definition roomy : @World bool nat := mkWorld names 2 [] true.

Definition exhausted : @World bool nat := mkWorld names 0 [] true.

End Broker.

Lemma factory_creates_iff_name_matches_witness :
  NewInstance Broker.provider_ctor Broker.roomy
    (PegasusCreateProvider Broker.provider_ctor 1%positive Broker.roomy) <->
  Pegasus.String.EqualNoCase
    (Pegasus.String.of_cstr "redhatclusterprovider") RedHatClusterProvider.
Proof.
  apply (factory_creates_iff_name_matches Broker.provider_ctor Broker.roomy
           1%positive (Pegasus.String.of_cstr "redhatclusterprovider")).
  - vm_compute. reflexivity.
  - split; [vm_compute; discriminate | exists O; reflexivity].
Defined.

Lemma factory_absent_on_other_names_witness :
  Absent Broker.roomy
    (PegasusCreateProvider Broker.provider_ctor 3%positive Broker.roomy).
Proof.
  apply (factory_absent_on_other_names Broker.provider_ctor Broker.roomy
           3%positive (Pegasus.String.of_cstr "RedHatCluster")).
  - vm_compute. reflexivity.
  - vm_compute. reflexivity.
  - vm_compute. discriminate.
Defined.

Lemma factory_two_outcomes_witness :
  (Absent Broker.roomy
     (PegasusCreateProvider Broker.provider_ctor 2%positive Broker.roomy) \/
   NewInstance Broker.provider_ctor Broker.roomy
     (PegasusCreateProvider Broker.provider_ctor 2%positive Broker.roomy) \/
   exists e, construction_fails Broker.provider_ctor Broker.roomy e /\
     Propagates Broker.roomy e
       (PegasusCreateProvider Broker.provider_ctor 2%positive Broker.roomy)) /\
  ~ (Absent Broker.roomy
       (PegasusCreateProvider Broker.provider_ctor 2%positive Broker.roomy) /\
     NewInstance Broker.provider_ctor Broker.roomy
       (PegasusCreateProvider Broker.provider_ctor 2%positive Broker.roomy)) /\
  (forall p,
     (PegasusCreateProvider Broker.provider_ctor 2%positive Broker.roomy).1
       = Returned p ->
     Absent Broker.roomy
       (PegasusCreateProvider Broker.provider_ctor 2%positive Broker.roomy) \/
     NewInstance Broker.provider_ctor Broker.roomy
       (PegasusCreateProvider Broker.provider_ctor 2%positive Broker.roomy)).
Proof.
  apply (factory_two_outcomes Broker.provider_ctor Broker.roomy 2%positive
           (Pegasus.String.of_cstr "REDHATCLUSTERPROVIDER")).
  vm_compute. reflexivity.
Defined.


Lemma repeated_calls_give_distinct_instances_witness :
  exists (a1 a2 : addr) (w1 w2 : @World bool nat),
    PegasusCreateProvider Broker.provider_ctor 1%positive Broker.roomy
      = (Returned (Ptr a1), w1) /\
    PegasusCreateProvider Broker.provider_ctor 2%positive w1
      = (Returned (Ptr a2), w2) /\
    a1 <> a2 /\
    heap Broker.roomy !! a1 = None /\
    heap w1 !! a2 = None /\
    heap w2 !! a1 = Some (ProviderObj O) /\
    heap w2 !! a2 = Some (ProviderObj O) /\
    (delete_provider (Ptr a1) w2).1 = Returned tt /\
    heap (delete_provider (Ptr a1) w2).2 !! a1 = None /\
    heap (delete_provider (Ptr a1) w2).2 !! a2 = Some (ProviderObj O) /\
    (delete_provider (Ptr a2) w2).1 = Returned tt /\
    heap (delete_provider (Ptr a2) w2).2 !! a2 = None /\
    heap (delete_provider (Ptr a2) w2).2 !! a1 = Some (ProviderObj O).
Proof.
  apply (repeated_calls_give_distinct_instances Broker.provider_ctor
           Broker.roomy 1%positive 2%positive
           (Pegasus.String.of_cstr "redhatclusterprovider")
           (Pegasus.String.of_cstr "REDHATCLUSTERPROVIDER") O).
  - vm_compute. reflexivity.
  - vm_compute. reflexivity.
  - vm_compute. reflexivity.
  - vm_compute. reflexivity.
  - cbn. lia.
  - reflexivity.
Defined.

Lemma unmatched_twice_witness :
  Absent Broker.roomy
    (PegasusCreateProvider Broker.provider_ctor 4%positive Broker.roomy) /\
  Absent Broker.roomy
    (PegasusCreateProvider Broker.provider_ctor 4%positive
       (PegasusCreateProvider Broker.provider_ctor 4%positive
          Broker.roomy).2) /\
  Absent Broker.roomy
    (bind (PegasusCreateProvider Broker.provider_ctor 4%positive)
          (fun _ => PegasusCreateProvider Broker.provider_ctor 4%positive)
          Broker.roomy).
Proof.
  apply (unmatched_twice Broker.provider_ctor Broker.roomy 4%positive []).
  - vm_compute. reflexivity.
  - vm_compute. reflexivity.
  - vm_compute. discriminate.
Defined.


(** A name that does not match, in a process whose free store is
    exhausted: the call is left by [std::bad_alloc]; and in a process with
    room, [operator new] is called on this path. *)
Lemma unmatched_call_allocates :
  Pegasus.String.equalNoCase (Pegasus.String.of_cstr "RedHatCluster")
    RedHatClusterProvider = false /\
  refers_to Broker.exhausted 3%positive
    (Pegasus.String.of_cstr "RedHatCluster") /\
  (PegasusCreateProvider Broker.provider_ctor 3%positive Broker.exhausted).1
    = Thrown bad_alloc /\
  (PegasusCreateProvider Broker.provider_ctor 3%positive Broker.roomy).1
    = Returned NULL /\
  trace (PegasusCreateProvider Broker.provider_ctor 3%positive Broker.roomy).2
    = [EvDelete 5%positive; EvNew 5%positive].
Proof. vm_compute. repeat split; reflexivity. Qed.

Lemma unmatched_allocates_only_temporary_witness :
  (store_left Broker.exhausted <> O ->
   PegasusCreateProvider Broker.provider_ctor 3%positive Broker.exhausted
     = (Returned NULL, after_temporary Broker.exhausted)) /\
  (store_left Broker.exhausted = O ->
   PegasusCreateProvider Broker.provider_ctor 3%positive Broker.exhausted =
     (Thrown bad_alloc,
      mkWorld (heap Broker.exhausted) O
              (EvNewFailed :: trace Broker.exhausted)
              (globals Broker.exhausted))) /\
  heap (PegasusCreateProvider Broker.provider_ctor 3%positive
          Broker.exhausted).2 = heap Broker.exhausted /\
  store_left (PegasusCreateProvider Broker.provider_ctor 3%positive
                Broker.exhausted).2 = store_left Broker.exhausted /\
  attempts (trace (PegasusCreateProvider Broker.provider_ctor 3%positive
                     Broker.exhausted).2)
    = S (attempts (trace Broker.exhausted)).
Proof.
  apply (unmatched_allocates_only_temporary Broker.provider_ctor
           Broker.exhausted 3%positive
           (Pegasus.String.of_cstr "RedHatCluster")).
  - vm_compute. reflexivity.
  - vm_compute. reflexivity.
Defined.

Lemma name_not_modified_witness :
  refers_to
    (PegasusCreateProvider Broker.provider_ctor 2%positive Broker.roomy).2
    2%positive (Pegasus.String.of_cstr "REDHATCLUSTERPROVIDER") /\
  (forall r' s,
     refers_to Broker.roomy r' s ->
     refers_to
       (PegasusCreateProvider Broker.provider_ctor 2%positive Broker.roomy).2
       r' s).
Proof.
  apply (name_not_modified Broker.provider_ctor Broker.roomy 2%positive
           (Pegasus.String.of_cstr "REDHATCLUSTERPROVIDER")).
  vm_compute. reflexivity.
Defined.

Lemma instance_independent_of_name_witness :
  (Broker.roomy = Broker.roomy ->
   PegasusCreateProvider Broker.provider_ctor 1%positive Broker.roomy =
   PegasusCreateProvider Broker.provider_ctor 2%positive Broker.roomy) /\
  (forall a1 a2,
     (PegasusCreateProvider Broker.provider_ctor 1%positive Broker.roomy).1
       = Returned (Ptr a1) ->
     (PegasusCreateProvider Broker.provider_ctor 2%positive Broker.roomy).1
       = Returned (Ptr a2) ->
     heap (PegasusCreateProvider Broker.provider_ctor 1%positive
             Broker.roomy).2 !! a1 =
     heap (PegasusCreateProvider Broker.provider_ctor 2%positive
             Broker.roomy).2 !! a2 /\
     exists cp, Broker.provider_ctor = inr cp /\
       heap (PegasusCreateProvider Broker.provider_ctor 1%positive
               Broker.roomy).2 !! a1 = Some (ProviderObj cp)).
Proof.
  apply (instance_independent_of_name Broker.provider_ctor
           Broker.roomy Broker.roomy 1%positive 2%positive
           (Pegasus.String.of_cstr "redhatclusterprovider")
           (Pegasus.String.of_cstr "REDHATCLUSTERPROVIDER")).
  - vm_compute. reflexivity.
  - vm_compute. reflexivity.
  - vm_compute. reflexivity.
  - vm_compute. reflexivity.
Defined.

(* ===================================================================== *)
(** ** The calls of the broker, evaluated                                 *)
(* ===================================================================== *)

Example probe_lower_case :
  (PegasusCreateProvider Broker.provider_ctor 1%positive Broker.roomy).1
    = Returned (Ptr 5%positive) /\
  trace (PegasusCreateProvider Broker.provider_ctor 1%positive Broker.roomy).2
    = [EvNew 5%positive; EvDelete 5%positive; EvNew 5%positive].
Proof. vm_compute. split; reflexivity. Qed.

Example probe_prefix :
  (PegasusCreateProvider Broker.provider_ctor 3%positive Broker.roomy).1
    = Returned NULL.
Proof. vm_compute. reflexivity. Qed.

Example probe_empty_name :
  (PegasusCreateProvider Broker.provider_ctor 4%positive Broker.roomy).1
    = Returned NULL /\
  (PegasusCreateProvider Broker.provider_ctor 4%positive Broker.exhausted).1
    = Thrown bad_alloc.
Proof. vm_compute. split; reflexivity. Qed.

Example probe_exhausted :
  (PegasusCreateProvider Broker.provider_ctor 2%positive Broker.exhausted).1
    = Thrown bad_alloc.
Proof. vm_compute. reflexivity. Qed.

Example probe_failing_constructor :
  (PegasusCreateProvider Broker.failing_ctor 1%positive Broker.roomy).1
    = Thrown (constructor_failure "no cluster") /\
  trace (PegasusCreateProvider Broker.failing_ctor 1%positive Broker.roomy).2
    = [EvDelete 5%positive; EvNew 5%positive;
       EvDelete 5%positive; EvNew 5%positive] /\
  store_left
    (PegasusCreateProvider Broker.failing_ctor 1%positive Broker.roomy).2
    = 2%nat.
Proof. vm_compute. repeat split; reflexivity. Qed.

(* ===================================================================== *)
(** ** Ownership and whole names, at the broker                           *)
(* ===================================================================== *)

Lemma create_then_delete_restores_witness :
  exists (a : addr) (w1 : @World bool nat),
    PegasusCreateProvider Broker.provider_ctor 2%positive Broker.roomy
      = (Returned (Ptr a), w1) /\
    (delete_provider (Ptr a) w1).1 = Returned tt /\
    heap (delete_provider (Ptr a) w1).2 = heap Broker.roomy /\
    store_left (delete_provider (Ptr a) w1).2 = store_left Broker.roomy /\
    globals (delete_provider (Ptr a) w1).2 = globals Broker.roomy.
Proof.
  apply (create_then_delete_restores Broker.provider_ctor Broker.roomy
           2%positive (Pegasus.String.of_cstr "REDHATCLUSTERPROVIDER")).
  - vm_compute. reflexivity.
  - vm_compute. reflexivity.
  - split; [vm_compute; discriminate | exists O; reflexivity].
Defined.

Lemma storage_conserved_witness :
  match (PegasusCreateProvider Broker.failing_ctor 1%positive
           Broker.roomy).1 with
  | Returned (Ptr a) =>
      heap Broker.roomy !! a = None /\
      (exists cp,
         heap (PegasusCreateProvider Broker.failing_ctor 1%positive
                 Broker.roomy).2 = <[a := ProviderObj cp]> (heap Broker.roomy))
      /\
      S (store_left (PegasusCreateProvider Broker.failing_ctor 1%positive
                       Broker.roomy).2) = store_left Broker.roomy
  | _ =>
      heap (PegasusCreateProvider Broker.failing_ctor 1%positive
              Broker.roomy).2 = heap Broker.roomy /\
      store_left (PegasusCreateProvider Broker.failing_ctor 1%positive
                    Broker.roomy).2 = store_left Broker.roomy
  end.
Proof.
  apply (storage_conserved Broker.failing_ctor Broker.roomy 1%positive
           (Pegasus.String.of_cstr "redhatclusterprovider")).
  vm_compute. reflexivity.
Defined.

Lemma case_variants_treated_alike_witness :
  PegasusCreateProvider Broker.provider_ctor 1%positive Broker.roomy =
  PegasusCreateProvider Broker.provider_ctor 2%positive Broker.roomy.
Proof.
  apply (case_variants_treated_alike Broker.provider_ctor Broker.roomy
           1%positive 2%positive
           (Pegasus.String.of_cstr "redhatclusterprovider")
           (Pegasus.String.of_cstr "REDHATCLUSTERPROVIDER")).
  - vm_compute. reflexivity.
  - vm_compute. reflexivity.
  - vm_compute. reflexivity.
Defined.

Lemma whole_name_compared_witness :
  (forall a,
     (PegasusCreateProvider Broker.provider_ctor 3%positive Broker.roomy).1
       <> Returned (Ptr a)) /\
  (store_left Broker.roomy <> O ->
   Absent Broker.roomy
     (PegasusCreateProvider Broker.provider_ctor 3%positive Broker.roomy)).
Proof.
  apply (whole_name_compared Broker.provider_ctor Broker.roomy 3%positive
           (Pegasus.String.of_cstr "RedHatCluster")
           (Pegasus.String.of_cstr "redhatclusterprovider")).
  - vm_compute. reflexivity.
  - vm_compute. reflexivity.
  - vm_compute. discriminate.
Defined.
